(** * Verification model of the QuantumX bot worker (src/bot/index.js)

    Two parts of the worker are modelled:
    - [CommandHandler.handleCommand] and [logCommandUsage]: the command
      dispatch pipeline and its audit log, as a state and error monad
      over a trace of observable effects (store inserts, replies);
    - [EventHandler.awardXP], [createServerConfig] and the [guildCreate]
      handler: the leveling engine and the join path, as explicit
      state passing over the store tables. *)

From Stdlib Require Import ZArith Bool List Lia.
From stdpp Require Import base gmap strings list.
From Stdlib Require Import Reals Lra.

Open Scope Z_scope.

(* ------------------------------------------------------------------ *)
(** ** Thrown JavaScript values *)

(** A value reaching a [catch] block: an object (an [Error], whose
    [message] property may be missing) or [null]/[undefined]. *)
Inductive jsexn :=
| JsError (message : option string)
| JsNullish.

(** The exception raised by reading [.message] on [null]/[undefined]. *)
Definition type_error : jsexn :=
  JsError (Some "Cannot read properties of null (reading 'message')").

(** The exception raised by a failed Discord API call (a rejected
    [interaction.reply] or [interaction.followUp]). *)
Definition api_error : jsexn := JsError (Some "DiscordAPIError").

(** The exception raised by a failed D1 statement. *)
Definition db_error : jsexn := JsError (Some "D1_ERROR").

Module Dispatch.

(** The fields of the Discord interaction read by the pipeline. *)
Record Interaction := mkInteraction {
  commandName : string;
  guildId : string;
  user_id : string;
  createdTimestamp : Z;
  replied : bool;
  deferred : bool
}.

(** A row of the [command_usage] table ([id] and [used_at] are a random
    tag and the store clock; no property reads them). *)
Record CommandUsage := mkCommandUsage {
  cu_command_name : string;
  cu_server_id : string;
  cu_user_id : string;
  cu_success : bool;
  cu_execution_time : Z;
  cu_error_message : option string
}.

Inductive ReplyMode := Initial | FollowUp.

(** A message sent on the interaction. *)
Record Reply := mkReply {
  r_mode : ReplyMode;
  r_content : string;
  r_ephemeral : bool
}.

(** Observable effects, in the order they happen. *)
Inductive Event :=
| UsageInserted (row : CommandUsage)   (** an INSERT INTO command_usage *)
| Executed (name : string)             (** [command.execute] was entered *)
| Sent (who : string) (r : Reply).     (** a reply, by the pipeline or a handler *)

(** What a command's [execute] does: the replies it sends, whether it
    leaves the interaction replied or deferred, and whether it completes
    or throws. *)
Record Handled := mkHandled {
  h_sent : list Reply;
  h_replied : bool;
  h_deferred : bool;
  h_result : option jsexn   (** [None]: completes; [Some e]: throws [e] *)
}.

Record Command := mkCommand { execute : Interaction -> Handled }.

(** The environment of one dispatch: the clock ([Date.now()]), and whether
    store writes and Discord replies fail. *)
Record Env := mkEnv {
  now : Z;
  db_fails : bool;
  reply_fails : bool
}.

Record State := mkState {
  trace : list Event;
  itx : Interaction
}.

(** A state and error monad: the JavaScript [async] function bodies. *)
Inductive res (A : Type) := Ok (a : A) | Err (e : jsexn).
Arguments Ok {A} a.
Arguments Err {A} e.

Definition M (A : Type) := Env -> State -> res A * State.

Definition ret {A} (a : A) : M A := fun _ s => (Ok a, s).
Definition throw {A} (e : jsexn) : M A := fun _ s => (Err e, s).
Definition bind {A B} (m : M A) (k : A -> M B) : M B :=
  fun env s => match m env s with
               | (Ok a, s') => k a env s'
               | (Err e, s') => (Err e, s')
               end.
(** [try { m } catch (e) { h(e) }] *)
Definition try_catch {A} (m : M A) (h : jsexn -> M A) : M A :=
  fun env s => match m env s with
               | (Ok a, s') => (Ok a, s')
               | (Err e, s') => h e env s'
               end.
Definition get_env : M Env := fun env s => (Ok env, s).
Definition get_itx : M Interaction := fun _ s => (Ok (itx s), s).
Definition emit (ev : Event) : M unit :=
  fun _ s => (Ok tt, mkState (trace s ++ [ev]) (itx s)).

Notation "x <- m ;; k" := (bind m (fun x => k))
  (at level 100, m at next level, right associativity).
Notation "m ;;; k" := (bind m (fun _ => k))
  (at level 100, right associativity).

(** [error.message] *)
Definition message_of (e : jsexn) : M (option string) :=
  match e with
  | JsError m => ret m
  | JsNullish => throw type_error
  end.

(** [interaction.reply(msg)]: marks the interaction replied. *)
Definition reply (content : string) (ephemeral : bool) : M unit :=
  fun env s =>
    if reply_fails env then (Err api_error, s)
    else let i := itx s in
         (Ok tt, mkState (trace s ++ [Sent "pipeline" (mkReply Initial content ephemeral)])
                         (mkInteraction (commandName i) (guildId i) (user_id i)
                                        (createdTimestamp i) true (deferred i))).

(** [interaction.followUp(msg)] *)
Definition followUp (content : string) (ephemeral : bool) : M unit :=
  fun env s =>
    if reply_fails env then (Err api_error, s)
    else (Ok tt, mkState (trace s ++ [Sent "pipeline" (mkReply FollowUp content ephemeral)]) (itx s)).

(** [await command.execute(interaction, env)] *)
Definition run_execute (c : Command) : M unit :=
  fun _ s =>
    let i := itx s in
    let h := execute c i in
    let s' := mkState (trace s ++ Executed (commandName i) :: map (Sent "handler") (h_sent h))
                      (mkInteraction (commandName i) (guildId i) (user_id i) (createdTimestamp i)
                                     (replied i || h_replied h) (deferred i || h_deferred h)) in
    match h_result h with
    | None => (Ok tt, s')
    | Some e => (Err e, s')
    end.

(** The D1 statement [INSERT INTO command_usage ...]. *)
Definition insert_usage (row : CommandUsage) : M unit :=
  env <- get_env ;;
  if db_fails env then throw db_error else emit (UsageInserted row).

(** [CommandHandler.logCommandUsage] (lines 46-66). *)
Definition logCommandUsage (success : bool) (errorMessage : option string) : M unit :=
  try_catch
    (env <- get_env ;;
     i <- get_itx ;;
     let executionTime := now env - createdTimestamp i in
     insert_usage (mkCommandUsage (commandName i) (guildId i) (user_id i)
                                  success executionTime errorMessage))
    (fun _ => ret tt).

Definition not_found_text : string := "Command not found!".
Definition error_text : string := "There was an error executing this command!".

(** [CommandHandler.handleCommand] (lines 16-44); [commands] is the
    [Collection] of registered commands. *)
Definition handleCommand (commands : gmap string Command) : M unit :=
  i <- get_itx ;;
  match commands !! commandName i with
  | None => reply not_found_text true ;;; ret tt
  | Some command =>
      try_catch
        (logCommandUsage true None ;;;
         run_execute command)
        (fun error =>
           msg <- message_of error ;;
           logCommandUsage false msg ;;;
           i' <- get_itx ;;
           if replied i' || deferred i' then followUp error_text true
           else reply error_text true)
  end.

(** The usage rows written, in order. *)
Fixpoint usage_rows (t : list Event) : list CommandUsage :=
  match t with
  | [] => []
  | UsageInserted r :: t' => r :: usage_rows t'
  | _ :: t' => usage_rows t'
  end.

(** The replies sent by the pipeline, in order. *)
Fixpoint pipeline_replies (t : list Event) : list Reply :=
  match t with
  | [] => []
  | Sent "pipeline" r :: t' => r :: pipeline_replies t'
  | _ :: t' => pipeline_replies t'
  end.

(** [CommandHandler.registerCommand(name, command)] (lines 68-70):
    [this.commands.set(name, command)]. *)
Definition registerCommand (name : string) (command : Command)
    (commands : gmap string Command) : gmap string Command :=
  <[name := command]> commands.

End Dispatch.

(* ------------------------------------------------------------------ *)
(** ** The leveling engine: [EventHandler.awardXP] (lines 185-228) *)

Module Leveling.

(** [Math.random()] in V8 is a double [k / 2^52] with [0 <= k < 2^52];
    a draw is that [k]. *)
Definition random_resolution : Z := 2 ^ 52.

Definition valid_draw (k : Z) : Prop := 0 <= k < random_resolution.

(** [Math.floor(Math.random() * 15) + 10] (line 189), with the product
    [Math.random() * 15] taken exactly. *)
Definition xp_to_award (k : Z) : Z := (k * 15) / random_resolution + 10.

(** [Math.floor(0.1 * Math.sqrt(newXP))] (line 205), taken exactly:
    [floor (sqrt x / 10) = floor (floor (sqrt x) / 10)]. *)
Definition js_level (x : Z) : Z := Z.sqrt x / 10.

(** The level formula of the spec, over the real numbers:
    [floor(0.1 * sqrt(totalXP))]. *)
Definition spec_level (x : Z) : Z := Int_part (0.1 * sqrt (IZR x))%R.

(** A row of [user_levels] ([id] is a random tag no property reads;
    [last_xp_gain] is [new Date(existing.last_xp_gain).getTime()], [None]
    when the column is null). *)
Record UserLevel := mkUserLevel {
  xp : Z;
  level : Z;
  messages_sent : Z;
  last_xp_gain : option Z
}.

(** [user_levels] addressed by its lookup key [(user_id, server_id)]. *)
Abbreviation Key := (string * string)%type.

(** SQLite's [CURRENT_TIMESTAMP] at clock [now] (ms), as read back in
    milliseconds: the text has second resolution. *)
Definition current_timestamp (now : Z) : Z := now - now mod 1000.

(** The effect of one call: the row written for the key by the UPDATE or
    the INSERT (if any), and the level named in the congratulation reply
    (if one is sent). *)
Record AwardOutcome := mkAwardOutcome {
  written : option UserLevel;
  congratulated : option Z
}.

Definition no_award : AwardOutcome := mkAwardOutcome None None.

(** [awardXP(message)]. [db_ok] is false when a store statement fails:
    the [catch] then swallows the error, before any write or reply. *)
Definition awardXP (db_ok : bool) (now : Z) (draw : Z)
    (userId serverId : string) (user_levels : gmap Key UserLevel) : AwardOutcome :=
  let xpToAward := xp_to_award draw in
  if negb db_ok then no_award else
  let existing := user_levels !! (userId, serverId) in
  let cooling :=
    match existing with
    | Some e => match last_xp_gain e with
                | Some lastGain => now - lastGain <? 60000
                | None => false
                end
    | None => false
    end in
  if cooling then no_award else
  match existing with
  | Some e =>
      let newXP := xp e + xpToAward in
      let newLevel := js_level newXP in
      let leveledUp := level e <? newLevel in
      mkAwardOutcome
        (Some (mkUserLevel newXP newLevel (messages_sent e + 1)
                           (Some (current_timestamp now))))
        (if leveledUp then Some newLevel else None)
  | None =>
      mkAwardOutcome (Some (mkUserLevel xpToAward 0 1 (Some (current_timestamp now)))) None
  end.

(** The table after the call. *)
Definition apply_award (user_levels : gmap Key UserLevel) (k : Key)
    (out : AwardOutcome) : gmap Key UserLevel :=
  match written out with
  | Some r => <[k := r]> user_levels
  | None => user_levels
  end.

(** A qualifying message, handled to completion before the next one. *)
Record XPEvent := mkXPEvent {
  ev_user : string;
  ev_server : string;
  ev_time : Z;
  ev_draw : Z;
  ev_db_ok : bool
}.

(** Sequential handling of messages: the final table and the awards
    recorded, as (key, stored [last_xp_gain]). *)
Fixpoint run_awards (user_levels : gmap Key UserLevel) (evs : list XPEvent)
    : gmap Key UserLevel * list (Key * Z) :=
  match evs with
  | [] => (user_levels, [])
  | ev :: evs' =>
      let k := (ev_user ev, ev_server ev) in
      let out := awardXP (ev_db_ok ev) (ev_time ev) (ev_draw ev)
                         (ev_user ev) (ev_server ev) user_levels in
      let recd := match written out with
                  | Some r => match last_xp_gain r with
                              | Some t => [(k, t)]
                              | None => []
                              end
                  | None => []
                  end in
      let '(final, recs) := run_awards (apply_award user_levels k out) evs' in
      (final, recd ++ recs)
  end.

(** The recorded award timestamps of one key, in order. *)
Definition award_times (k : Key) (recs : list (Key * Z)) : list Z :=
  map snd (List.filter (fun p => bool_decide (p.1 = k)) recs).

End Leveling.

(* ------------------------------------------------------------------ *)
(** ** The join path: [guildCreate] (lines 105-113) *)

Module Join.

Record Guild := mkGuild {
  g_id : string;
  g_name : string;
  g_memberCount : Z
}.

(** A row of [server_configs]. *)
Record ServerConfig := mkServerConfig {
  server_id : string;
  server_name : string;
  created_at : Z;
  leveling_enabled : bool
}.

(** The singleton row [main_stats] of [bot_stats]. *)
Record BotStats := mkBotStats {
  total_servers : Z;
  total_users : Z;
  last_restart : Z;
  recorded_at : Z
}.

Record Store := mkStore {
  server_configs : list ServerConfig;
  bot_stats : option BotStats
}.

(** Modelled from the spec: the [server_configs] schema, which is not
    part of the sources. [server_id] is UNIQUE and [leveling_enabled]
    defaults to true, so [INSERT OR IGNORE INTO server_configs
    (server_id, server_name, created_at)] appends a row unless one with
    the same [server_id] exists. *)
Definition insert_or_ignore_config (tbl : list ServerConfig)
    (sid name : string) (ts : Z) : list ServerConfig :=
  if existsb (fun r => String.eqb (server_id r) sid) tbl then tbl
  else tbl ++ [mkServerConfig sid name ts true].

(** [createServerConfig(guild)] (lines 161-170); [db_ok] is false when
    the statement fails (the error is logged and swallowed). *)
Definition createServerConfig (db_ok : bool) (now : Z) (guild : Guild)
    (st : Store) : Store :=
  if db_ok then
    mkStore (insert_or_ignore_config (server_configs st) (g_id guild) (g_name guild)
               (Leveling.current_timestamp now))
            (bot_stats st)
  else st.

(** [updateBotStats()] (lines 146-159); [cache] is
    [this.client.guilds.cache]. [INSERT OR REPLACE] on the fixed id
    overwrites the singleton row. *)
Definition updateBotStats (db_ok : bool) (now : Z) (cache : list Guild)
    (st : Store) : Store :=
  if db_ok then
    let totalServers := Z.of_nat (length cache) in
    let totalUsers := fold_left (fun acc g => acc + g_memberCount g) cache 0 in
    mkStore (server_configs st)
            (Some (mkBotStats totalServers totalUsers
                              (Leveling.current_timestamp now)
                              (Leveling.current_timestamp now)))
  else st.

(** The failure pattern of one run of the join handler: whether each of
    its two statements succeeds. *)
Record JoinEnv := mkJoinEnv {
  config_ok : bool;
  stats_ok : bool;
  join_now : Z;
  join_cache : list Guild
}.

(** The [guildCreate] listener. *)
Definition on_guildCreate (env : JoinEnv) (guild : Guild) (st : Store) : Store :=
  updateBotStats (stats_ok env) (join_now env) (join_cache env)
    (createServerConfig (config_ok env) (join_now env) guild st).

(** The rows of [server_configs] for one server id. *)
Definition config_rows (sid : string) (tbl : list ServerConfig) : list ServerConfig :=
  List.filter (fun r => String.eqb (server_id r) sid) tbl.

(** The [guildDelete] listener (lines 116-121): only the stats. *)
Definition on_guildDelete (env : JoinEnv) (st : Store) : Store :=
  updateBotStats (stats_ok env) (join_now env) (join_cache env) st.

End Join.

(* ------------------------------------------------------------------ *)
(** ** The message path: the [messageCreate] listener (lines 124-134) *)

Module Events.
Import Leveling Join.

(** The fields of a Discord message read by the listener; [guild] is
    [message.guild?.id], [None] for a direct message. *)
Record Message := mkMessage {
  author_id : string;
  author_bot : bool;
  guild : option string
}.

(** The tables the listener reads and writes. *)
Record World := mkWorld {
  store : Store;
  user_levels : gmap Key UserLevel
}.

(** [getServerConfig(serverId)] (lines 172-183): [.first()] returns the
    first matching row; a failing statement gives [null]. *)
Definition getServerConfig (db_ok : bool) (serverId : string) (st : Store)
    : option ServerConfig :=
  if db_ok then head (config_rows serverId (server_configs st)) else None.

(** The environment of one message: whether the config lookup and the
    award statements succeed, the clock and the random draw. *)
Record MsgEnv := mkMsgEnv {
  cfg_ok : bool;
  award_ok : bool;
  msg_now : Z;
  msg_draw : Z
}.

(** The [messageCreate] listener, with the level named by the
    congratulation reply, if one is sent. [leveling_enabled === 0] is
    [leveling_enabled = false]. *)
Definition on_messageCreate (env : MsgEnv) (message : Message) (w : World)
    : World * option Z :=
  if author_bot message then (w, None) else
  match guild message with
  | None => (w, None)
  | Some gid =>
      match getServerConfig (cfg_ok env) gid (store w) with
      | None => (w, None)
      | Some config =>
          if negb (leveling_enabled config) then (w, None) else
          let out := awardXP (award_ok env) (msg_now env) (msg_draw env)
                             (author_id message) gid (user_levels w) in
          (mkWorld (store w) (apply_award (user_levels w) (author_id message, gid) out),
           congratulated out)
      end
  end.

End Events.

(* ================================================================== *)
(** * Properties of the dispatch pipeline *)

Module DispatchFacts.
Import Dispatch.

(** A registered command [ping] whose handler throws [new Error("boom")]
    before replying, and an interaction for it. *)
Definition boom_cmd : Command :=
  mkCommand (fun _ => mkHandled [] false false (Some (JsError (Some "boom")))).

(** A registered command whose handler throws [null]. *)
Definition null_cmd : Command :=
  mkCommand (fun _ => mkHandled [] false false (Some JsNullish)).

Definition ping_itx : Interaction := mkInteraction "ping" "g1" "u1" 1000 false false.
Definition foo_itx : Interaction := mkInteraction "foo" "g1" "u1" 1000 false false.

Definition env_ok : Env := mkEnv 1500 false false.
Definition env_reply_down : Env := mkEnv 1500 false true.

Definition registry (c : Command) : gmap string Command := {[ "ping" := c ]}.

(** The row [logCommandUsage] writes for interaction [i]. *)
Definition usage_row (env : Env) (i : Interaction) (success : bool)
    (msg : option string) : CommandUsage :=
  mkCommandUsage (commandName i) (guildId i) (user_id i) success
                 (now env - createdTimestamp i) msg.

Lemma usage_rows_app (t1 t2 : list Event) :
  usage_rows (t1 ++ t2) = usage_rows t1 ++ usage_rows t2.
Proof.
  induction t1 as [|ev t1 IH]; [done|].
  destruct ev; simpl; rewrite IH; done.
Qed.

Lemma usage_rows_map_sent (w : string) (rs : list Reply) :
  usage_rows (map (Sent w) rs) = [].
Proof. induction rs; simpl; done. Qed.

(** C1, as stated, fails: a handler throwing ["boom"] gets two rows. *)
Lemma boom_two_usage_rows :
  usage_rows (trace (snd (handleCommand (registry boom_cmd) env_ok (mkState [] ping_itx))))
  = [usage_row env_ok ping_itx true None;
     usage_row env_ok ping_itx false (Some "boom")].
Proof. reflexivity. Qed.

Ltac run_dispatch :=
  unfold handleCommand, try_catch, logCommandUsage, insert_usage, run_execute,
    message_of, followUp, reply, bind, ret, throw, get_env, get_itx, emit; simpl.

(** C1 (amended): for a resolved command, when the store accepts the
    writes, a success row is written before the handler is entered;
    a handler that throws an Error with message [m] adds a second row,
    with success=false and error_message=[m], and nothing else does. *)
Theorem handleCommand_usage_log (cmds : gmap string Command) (c : Command)
    (env : Env) (s : State) :
  cmds !! commandName (itx s) = Some c ->
  db_fails env = false ->
  h_result (execute c (itx s)) <> Some JsNullish ->
  exists rest,
    trace (snd (handleCommand cmds env s)) =
      trace s ++ UsageInserted (usage_row env (itx s) true None)
              :: Executed (commandName (itx s)) :: rest /\
    usage_rows rest =
      match h_result (execute c (itx s)) with
      | Some (JsError m) => [usage_row env (itx s) false m]
      | _ => []
      end.
Proof.
  destruct s as [t i]; simpl. intros Hc Hdb Hnn.
  run_dispatch. rewrite Hc. run_dispatch. rewrite Hdb. simpl.
  destruct (execute c i) as [sent hr hd hres]; simpl in *.
  destruct hres as [[m|]|]; simpl.
  - destruct (replied i || hr || (deferred i || hd)), (reply_fails env); simpl;
      eexists; (split; [rewrite <- !app_assoc; reflexivity|]);
      rewrite ?usage_rows_app, ?usage_rows_map_sent; reflexivity.
  - done.
  - eexists; (split; [rewrite <- !app_assoc; reflexivity|]).
    rewrite usage_rows_map_sent; reflexivity.
Qed.

(** When a handler throws an Error and the reply call succeeds, the
    pipeline's last effect is the generic notice, as a follow-up when the
    interaction was replied or deferred and as an initial reply
    otherwise. *)
Lemma handleCommand_failure_notice (cmds : gmap string Command) (c : Command)
    (env : Env) (s : State) (m : option string) :
  cmds !! commandName (itx s) = Some c ->
  h_result (execute c (itx s)) = Some (JsError m) ->
  reply_fails env = false ->
  let h := execute c (itx s) in
  let mode := if replied (itx s) || h_replied h || (deferred (itx s) || h_deferred h)
              then FollowUp else Initial in
  fst (handleCommand cmds env s) = Ok tt /\
  exists pre, trace (snd (handleCommand cmds env s)) =
                pre ++ [Sent "pipeline" (mkReply mode error_text true)].
Proof.
  destruct s as [t i]; simpl. intros Hc Hres Hrf. cbv zeta.
  run_dispatch. rewrite Hc. run_dispatch.
  destruct (db_fails env); simpl;
    destruct (execute c i) as [sent hr hd hres]; simpl in *; subst hres; simpl;
    destruct (replied i || hr || (deferred i || hd)); simpl;
    rewrite Hrf; simpl; split; try reflexivity; eexists; reflexivity.
Qed.

(** C3, as stated, fails: when the not-found reply is rejected by the
    API, the rejection propagates out of [handleCommand]. *)
Lemma not_found_reply_failure_propagates :
  fst (handleCommand (registry boom_cmd) env_reply_down (mkState [] foo_itx))
  = Err api_error.
Proof. reflexivity. Qed.

(** C3 (amended): the outcome of [handleCommand] is determined by the
    reply calls alone. An Error thrown by a handler and a failed audit-log
    write never leave it (the store's state does not even appear in the
    outcome); whenever a reply call is made (the not-found reply, or the
    failure notice as initial reply or follow-up) and the API rejects it,
    that rejection propagates to the caller. *)
Theorem handleCommand_contains_errors (cmds : gmap string Command)
    (env : Env) (s : State) :
  (forall c, cmds !! commandName (itx s) = Some c ->
             h_result (execute c (itx s)) <> Some JsNullish) ->
  fst (handleCommand cmds env s) =
    match cmds !! commandName (itx s) with
    | None => if reply_fails env then Err api_error else Ok tt
    | Some c =>
        match h_result (execute c (itx s)) with
        | None => Ok tt
        | Some _ => if reply_fails env then Err api_error else Ok tt
        end
    end.
Proof.
  destruct s as [t i]; simpl. intros Hnn.
  run_dispatch. destruct (cmds !! commandName i) as [c|] eqn:Hc.
  - specialize (Hnn c eq_refl). run_dispatch.
    destruct (db_fails env); simpl;
      destruct (execute c i) as [sent hr hd hres]; simpl in *;
      destruct hres as [[m|]|]; simpl; try done;
      destruct (replied i || hr || (deferred i || hd)), (reply_fails env); simpl; done.
  - run_dispatch. destruct (reply_fails env); simpl; done.
Qed.

(** C8: an unregistered command name gets the ephemeral not-found reply
    and nothing else: no usage row, no handler run. *)
Theorem handleCommand_not_found (cmds : gmap string Command)
    (env : Env) (s : State) :
  cmds !! commandName (itx s) = None ->
  usage_rows (trace (snd (handleCommand cmds env s))) = usage_rows (trace s) /\
  (reply_fails env = false ->
   fst (handleCommand cmds env s) = Ok tt /\
   trace (snd (handleCommand cmds env s)) =
     trace s ++ [Sent "pipeline" (mkReply Initial not_found_text true)]).
Proof.
  destruct s as [t i]; simpl. intros Hc.
  run_dispatch. rewrite Hc. run_dispatch.
  destruct (reply_fails env); simpl.
  - split; [done | discriminate].
  - rewrite usage_rows_app. simpl. rewrite app_nil_r. done.
Qed.

(** C9 fails on a handler that throws [null]: reading [error.message]
    in the [catch] block throws a TypeError, so no failure notice is sent
    and the TypeError leaves [handleCommand]. *)
Theorem null_throw_gets_no_notice :
  let r := handleCommand (registry null_cmd) env_ok (mkState [] ping_itx) in
  fst r = Err type_error /\ pipeline_replies (trace (snd r)) = [] /\
  usage_rows (trace (snd r)) = [usage_row env_ok ping_itx true None].
Proof. split; [reflexivity | split; reflexivity]. Qed.

End DispatchFacts.

(* ================================================================== *)
(** * Properties of the leveling engine *)

Module LevelingFacts.
Import Leveling.

Lemma Int_part_unique (r : R) (z : Z) :
  (IZR z <= r)%R -> (r < IZR (z + 1))%R -> Int_part r = z.
Proof.
  intros H1 H2. unfold Int_part. rewrite <- (up_tech r z H1 H2). lia.
Qed.

Lemma one_tenth : (0.1 = / 10)%R.
Proof. unfold Q2R. simpl. lra. Qed.

(** The level computed by the code is the spec's [floor(0.1 * sqrt xp)]. *)
Lemma js_level_spec (x : Z) : js_level x = spec_level x.
Proof.
  unfold js_level, spec_level. rewrite one_tenth.
  destruct (Z_lt_le_dec x 0) as [Hn|Hp].
  - rewrite Z.sqrt_neg, Zdiv_0_l by lia.
    rewrite sqrt_neg_0 by (apply IZR_le; lia).
    symmetry; apply Int_part_unique; rewrite ?plus_IZR; lra.
  - pose proof (Z.sqrt_spec x Hp) as [Hs1 Hs2].
    pose proof (Z.sqrt_nonneg x) as Hs0.
    set (s := Z.sqrt x) in *.
    pose proof (Z.div_mod s 10 ltac:(lia)) as Hdm.
    pose proof (Z.mod_pos_bound s 10 ltac:(lia)) as Hmb.
    set (q := s / 10) in *.
    assert (Hlo : (IZR s <= sqrt (IZR x))%R).
    { rewrite <- (sqrt_square (IZR s)) by (apply IZR_le; lia).
      apply sqrt_le_1_alt. rewrite <- mult_IZR. apply IZR_le. lia. }
    assert (Hhi : (sqrt (IZR x) < IZR (s + 1))%R).
    { rewrite <- (sqrt_square (IZR (s + 1))) by (apply IZR_le; lia).
      apply sqrt_lt_1_alt. split; [apply IZR_le; lia|].
      rewrite <- mult_IZR. apply IZR_lt. lia. }
    assert (H1 : (IZR (10 * q) <= IZR s)%R) by (apply IZR_le; lia).
    assert (H2 : (IZR (s + 1) <= IZR (10 * q + 10))%R) by (apply IZR_le; lia).
    rewrite mult_IZR in H1. rewrite !plus_IZR, mult_IZR in H2. rewrite plus_IZR in Hhi.
    symmetry; apply Int_part_unique; rewrite ?plus_IZR; lra.
Qed.

Lemma xp_to_award_bounds (k : Z) :
  valid_draw k -> 10 <= xp_to_award k <= 24.
Proof.
  unfold valid_draw, xp_to_award, random_resolution.
  change (2 ^ 52) with 4503599627370496. intros [H0 H1].
  assert (0 <= k * 15 / 4503599627370496) by (apply Z.div_pos; lia).
  assert (k * 15 / 4503599627370496 < 15) by (apply Z.div_lt_upper_bound; lia).
  lia.
Qed.

(** C2 (code bug): the award is in [10, 24], every value there is drawn,
    and 25 never is, although the comment on line 189 says 10-25. *)
Theorem xp_award_never_25 :
  (forall k, valid_draw k -> 10 <= xp_to_award k <= 24) /\
  (forall d, 10 <= d <= 24 -> exists k, valid_draw k /\ xp_to_award k = d) /\
  ~ (exists k, valid_draw k /\ xp_to_award k = 25).
Proof.
  split; [exact xp_to_award_bounds|split].
  - intros d Hd.
    exists (((d - 10) * random_resolution + 14) / 15).
    assert (d = 10 \/ d = 11 \/ d = 12 \/ d = 13 \/ d = 14 \/ d = 15 \/ d = 16 \/
            d = 17 \/ d = 18 \/ d = 19 \/ d = 20 \/ d = 21 \/ d = 22 \/ d = 23 \/
            d = 24) by lia.
    unfold valid_draw.
    repeat match goal with
           | H : _ \/ _ |- _ => destruct H as [->|H]
           | H : d = _ |- _ => subst d
           end;
      (split; [split; [apply Z.leb_le | apply Z.ltb_lt]; vm_compute; reflexivity
              | vm_compute; reflexivity]).
  - intros [k [Hk H25]]. pose proof (xp_to_award_bounds k Hk). lia.
Qed.

Lemma current_timestamp_mod (now : Z) : current_timestamp now mod 1000 = 0.
Proof.
  unfold current_timestamp.
  rewrite Zminus_mod, Z.mod_mod, Z.sub_diag by lia. reflexivity.
Qed.

Lemma current_timestamp_ge (now t : Z) :
  t mod 1000 = 0 -> t <= now -> t <= current_timestamp now.
Proof.
  unfold current_timestamp. intros Ht Hle.
  pose proof (Z.div_mod t 1000 ltac:(lia)) as Htd.
  pose proof (Z.div_mod now 1000 ltac:(lia)) as Hnd.
  pose proof (Z.mod_pos_bound now 1000 ltac:(lia)).
  lia.
Qed.

(** C5, first part: inside the cooldown window the call does nothing. *)
Lemma awardXP_cooling_noop (db_ok : bool) (now k : Z) (uid sid : string)
    (st : gmap Key UserLevel) (e : UserLevel) (lg : Z) :
  st !! (uid, sid) = Some e -> last_xp_gain e = Some lg -> now - lg < 60000 ->
  awardXP db_ok now k uid sid st = no_award.
Proof.
  intros He Hl Hlt. unfold awardXP. rewrite He, Hl.
  destruct db_ok; [|reflexivity]. simpl.
  replace (now - lg <? 60000) with true by (symmetry; apply Z.ltb_lt; lia).
  reflexivity.
Qed.

Lemma awardXP_written_stamp (db_ok : bool) (now k : Z) (uid sid : string)
    (st : gmap Key UserLevel) (r : UserLevel) :
  written (awardXP db_ok now k uid sid st) = Some r ->
  last_xp_gain r = Some (current_timestamp now).
Proof.
  unfold awardXP. destruct db_ok; simpl; [|discriminate].
  repeat case_match; simpl; intros Hw; try discriminate; injection Hw as <-; reflexivity.
Qed.

(** C4: every row the call writes (the UPDATE of an existing row or the
    INSERT of a first one) stores the level [floor(0.1 * sqrt xp)] of the
    xp it stores. *)
Theorem awardXP_level_rederivable (db_ok : bool) (now k : Z) (uid sid : string)
    (st : gmap Key UserLevel) :
  valid_draw k ->
  forall r, written (awardXP db_ok now k uid sid st) = Some r ->
  apply_award st (uid, sid) (awardXP db_ok now k uid sid st) !! (uid, sid) = Some r /\
  level r = spec_level (xp r).
Proof.
  intros Hk r Hw. unfold apply_award. rewrite Hw, lookup_insert_eq.
  split; [reflexivity|]. rewrite <- js_level_spec.
  revert Hw. unfold awardXP. destruct db_ok; simpl; [|discriminate].
  repeat case_match; simpl; intros Hw; try discriminate;
    injection Hw as <-; simpl; try reflexivity.
  pose proof (xp_to_award_bounds k Hk).
  unfold js_level.
  assert (Z.sqrt (xp_to_award k) <= Z.sqrt 24) by (apply Z.sqrt_le_mono; lia).
  change (Z.sqrt 24) with 4 in *.
  pose proof (Z.sqrt_nonneg (xp_to_award k)).
  rewrite Z.div_small by lia. reflexivity.
Qed.

Lemma award_times_app (key : Key) (l1 l2 : list (Key * Z)) :
  award_times key (l1 ++ l2) = award_times key l1 ++ award_times key l2.
Proof. unfold award_times. rewrite List.filter_app, map_app. reflexivity. Qed.

(** The invariant of sequential handling, for one key: once an award is
    recorded at [t], the row holds [t], and later awards come at least
    60000 ms after it. *)
Lemma run_awards_spaced (evs : list XPEvent) :
  forall (st : gmap Key UserLevel) (key : Key) (last : option Z),
  (forall t, last = Some t ->
     exists r, st !! key = Some r /\ last_xp_gain r = Some t /\ t mod 1000 = 0) ->
  ForallOrdPairs (fun a b => a + 60000 <= b) (award_times key (snd (run_awards st evs))) /\
  (forall t a, last = Some t -> In a (award_times key (snd (run_awards st evs))) ->
               t + 60000 <= a).
Proof.
  induction evs as [|ev evs IH]; intros st key last Hinv.
  - simpl. split; [constructor | intros ? ? ? []].
  - simpl.
    set (k' := (ev_user ev, ev_server ev)).
    set (out := awardXP (ev_db_ok ev) (ev_time ev) (ev_draw ev) (ev_user ev) (ev_server ev) st).
    destruct (run_awards (apply_award st k' out) evs) as [final recs] eqn:Hrun.
    simpl. rewrite award_times_app.
    destruct (written out) as [r|] eqn:Hw.
    + pose proof (awardXP_written_stamp _ _ _ _ _ _ _ Hw) as Hr. rewrite Hr.
      destruct (decide (k' = key)) as [<-|Hne].
      * (* this key gets an award at the new stamp *)
        set (t' := current_timestamp (ev_time ev)).
        assert (Hgap : forall t, last = Some t -> t + 60000 <= t').
        { intros t Ht. destruct (Hinv t Ht) as (e & He & Hl & Hm).
          destruct (Z.ltb_spec (ev_time ev - t) 60000) as [Hlt|Hge].
          - subst out. unfold k' in He.
            rewrite (awardXP_cooling_noop _ _ _ _ _ _ _ _ He Hl Hlt) in Hw.
            discriminate.
          - apply current_timestamp_ge; [|lia].
            rewrite Zplus_mod, Hm. reflexivity. }
        destruct (IH (apply_award st k' out) k' (Some t')) as [IHp IHa].
        { intros t Ht. injection Ht as <-. exists r.
          unfold apply_award. rewrite Hw, lookup_insert_eq.
          split; [reflexivity|split; [exact Hr|apply current_timestamp_mod]]. }
        rewrite Hrun in IHp, IHa. simpl in IHp, IHa.
        assert (Hone : award_times k' [(k', t')] = [t']).
        { unfold award_times. simpl. rewrite bool_decide_eq_true_2 by reflexivity.
          reflexivity. }
        fold t'. rewrite Hone. simpl. split.
        -- constructor; [|exact IHp].
           apply List.Forall_forall. intros a Ha. apply (IHa t' a eq_refl Ha).
        -- intros t a Ht [<-|Ha]; [apply Hgap, Ht|].
           pose proof (Hgap t Ht). pose proof (IHa t' a eq_refl Ha). lia.
      * (* another key: nothing recorded for this one, its row untouched *)
        assert (Hnone : award_times key [(k', current_timestamp (ev_time ev))] = []).
        { unfold award_times. simpl. rewrite bool_decide_eq_false_2 by exact Hne.
          reflexivity. }
        rewrite Hnone. simpl. destruct (IH (apply_award st k' out) key last) as [IHp IHa].
        { intros t Ht. destruct (Hinv t Ht) as (e & He & Hl & Hm). exists e.
          unfold apply_award. rewrite Hw, lookup_insert_ne by exact Hne. auto. }
        rewrite Hrun in IHp, IHa. exact (conj IHp IHa).
    + simpl. destruct (IH (apply_award st k' out) key last) as [IHp IHa].
      { unfold apply_award. rewrite Hw. exact Hinv. }
      rewrite Hrun in IHp, IHa. exact (conj IHp IHa).
Qed.

(** C5: inside the 60000 ms window after a recorded award the call
    neither writes nor replies; hence, handled one after the other, the
    awards recorded for one (user, server) pair are pairwise at least
    60000 ms apart. *)
Theorem awardXP_cooldown :
  (forall (db_ok : bool) (now k : Z) (uid sid : string)
          (st : gmap Key UserLevel) (e : UserLevel) (lg : Z),
     st !! (uid, sid) = Some e -> last_xp_gain e = Some lg -> now - lg < 60000 ->
     written (awardXP db_ok now k uid sid st) = None /\
     congratulated (awardXP db_ok now k uid sid st) = None /\
     apply_award st (uid, sid) (awardXP db_ok now k uid sid st) = st) /\
  (forall (st : gmap Key UserLevel) (evs : list XPEvent) (key : Key),
     ForallOrdPairs (fun a b => a + 60000 <= b) (award_times key (snd (run_awards st evs)))).
Proof.
  split.
  - intros db_ok now k uid sid st e lg He Hl Hlt.
    rewrite (awardXP_cooling_noop db_ok now k uid sid st e lg He Hl Hlt).
    split; [reflexivity|split; reflexivity].
  - intros st evs key.
    apply (run_awards_spaced evs st key None). discriminate.
Qed.

(** C6: over an existing row that passes the cooldown gate, the row is
    updated from the new total, and the congratulation names level [n]
    exactly when [n] is the new level and it exceeds the stored one; with
    xp 80, level 0 and an award of 20, it names level 1. *)
Theorem awardXP_level_up (db_ok : bool) (now k : Z) (uid sid : string)
    (st : gmap Key UserLevel) (e : UserLevel) :
  st !! (uid, sid) = Some e -> db_ok = true ->
  (forall lg, last_xp_gain e = Some lg -> 60000 <= now - lg) ->
  let newXP := xp e + xp_to_award k in
  let out := awardXP db_ok now k uid sid st in
  written out = Some (mkUserLevel newXP (js_level newXP) (messages_sent e + 1)
                                  (Some (current_timestamp now))) /\
  (forall n, congratulated out = Some n <-> n = js_level newXP /\ level e < n) /\
  (xp e = 80 -> level e = 0 -> xp_to_award k = 20 -> congratulated out = Some 1).
Proof.
  intros He Hdb Hgate. subst db_ok. cbv zeta. unfold awardXP. rewrite He. simpl.
  destruct (last_xp_gain e) as [lg|] eqn:Hl.
  - replace (now - lg <? 60000) with false
      by (symmetry; apply Z.ltb_ge; apply Hgate; reflexivity).
    simpl. split; [reflexivity|split].
    + intros n. destruct (Z.ltb_spec (level e) (js_level (xp e + xp_to_award k))) as [Hc|Hc].
      * split; [intros Hn; injection Hn as <-; split; [reflexivity|lia]
               | intros [-> _]; reflexivity].
      * split; [discriminate | intros [-> Hn]; lia].
    + intros H80 H0 H20. rewrite H80, H0, H20. reflexivity.
  - simpl. split; [reflexivity|split].
    + intros n. destruct (Z.ltb_spec (level e) (js_level (xp e + xp_to_award k))) as [Hc|Hc].
      * split; [intros Hn; injection Hn as <-; split; [reflexivity|lia]
               | intros [-> _]; reflexivity].
      * split; [discriminate | intros [-> Hn]; lia].
    + intros H80 H0 H20. rewrite H80, H0, H20. reflexivity.
Qed.

(** C10: a row whose [last_xp_gain] is null skips the cooldown gate: the
    call updates it at any time. *)
Theorem awardXP_null_last_gain (db_ok : bool) (now k : Z) (uid sid : string)
    (st : gmap Key UserLevel) (e : UserLevel) :
  st !! (uid, sid) = Some e -> last_xp_gain e = None -> db_ok = true ->
  written (awardXP db_ok now k uid sid st) =
    Some (mkUserLevel (xp e + xp_to_award k) (js_level (xp e + xp_to_award k))
                      (messages_sent e + 1) (Some (current_timestamp now))).
Proof.
  intros He Hl Hdb. subst db_ok. unfold awardXP. rewrite He, Hl. reflexivity.
Qed.

End LevelingFacts.

(* ================================================================== *)
(** * Properties of the join path *)

Module JoinFacts.
Import Join.

Lemma updateBotStats_configs (ok : bool) (now : Z) (cache : list Guild) (st : Store) :
  server_configs (updateBotStats ok now cache st) = server_configs st.
Proof. unfold updateBotStats. destruct ok; reflexivity. Qed.

Lemma existsb_config_rows (sid : string) (tbl : list ServerConfig) :
  existsb (fun r => String.eqb (server_id r) sid) tbl =
  match config_rows sid tbl with [] => false | _ :: _ => true end.
Proof.
  unfold config_rows. induction tbl as [|r tbl IH]; [reflexivity|].
  simpl. destruct (String.eqb (server_id r) sid); simpl; [reflexivity|exact IH].
Qed.

Lemma config_rows_snoc (sid name : string) (ts : Z) (tbl : list ServerConfig) :
  config_rows sid (tbl ++ [mkServerConfig sid name ts true]) =
  config_rows sid tbl ++ [mkServerConfig sid name ts true].
Proof.
  unfold config_rows. rewrite List.filter_app. simpl.
  rewrite String.eqb_refl. reflexivity.
Qed.

Lemma on_guildCreate_configs (env : JoinEnv) (g : Guild) (st : Store) :
  server_configs (on_guildCreate env g st) =
  if config_ok env
  then insert_or_ignore_config (server_configs st) (g_id g) (g_name g)
         (Leveling.current_timestamp (join_now env))
  else server_configs st.
Proof.
  unfold on_guildCreate. rewrite updateBotStats_configs.
  unfold createServerConfig. destruct (config_ok env); reflexivity.
Qed.

Lemma insert_or_ignore_present (tbl : list ServerConfig) (sid name : string) (ts : Z) :
  config_rows sid tbl <> [] -> insert_or_ignore_config tbl sid name ts = tbl.
Proof.
  intros Hne. unfold insert_or_ignore_config. rewrite existsb_config_rows.
  destruct (config_rows sid tbl); [contradiction|reflexivity].
Qed.

Lemma insert_or_ignore_absent (tbl : list ServerConfig) (sid name : string) (ts : Z) :
  config_rows sid tbl = [] ->
  insert_or_ignore_config tbl sid name ts = tbl ++ [mkServerConfig sid name ts true].
Proof.
  intros He. unfold insert_or_ignore_config. rewrite existsb_config_rows, He.
  reflexivity.
Qed.

(** C7: running the join handler twice for one server id, the first
    write succeeding, leaves exactly one [server_configs] row for it, the
    one present after the first run: the second run alters no row. *)
Theorem join_twice_single_row (env1 env2 : JoinEnv) (g1 g2 : Guild) (st0 : Store) :
  g_id g2 = g_id g1 -> config_ok env1 = true ->
  (length (config_rows (g_id g1) (server_configs st0)) <= 1)%nat ->
  let st1 := on_guildCreate env1 g1 st0 in
  let st2 := on_guildCreate env2 g2 st1 in
  length (config_rows (g_id g1) (server_configs st2)) = 1%nat /\
  server_configs st2 = server_configs st1 /\
  (config_rows (g_id g1) (server_configs st0) = [] ->
   config_rows (g_id g1) (server_configs st2) =
     [mkServerConfig (g_id g1) (g_name g1)
                     (Leveling.current_timestamp (join_now env1)) true]).
Proof.
  intros Hid Hok Hle. cbv zeta.
  rewrite !on_guildCreate_configs, Hok, Hid.
  set (ts1 := Leveling.current_timestamp (join_now env1)).
  set (row1 := mkServerConfig (g_id g1) (g_name g1) ts1 true).
  (* after the first run the server has exactly one row *)
  assert (H1 : length (config_rows (g_id g1)
                 (insert_or_ignore_config (server_configs st0) (g_id g1) (g_name g1) ts1))
               = 1%nat /\
               (config_rows (g_id g1) (server_configs st0) = [] ->
                config_rows (g_id g1)
                  (insert_or_ignore_config (server_configs st0) (g_id g1) (g_name g1) ts1)
                = [row1])).
  { destruct (config_rows (g_id g1) (server_configs st0)) as [|r0 rs] eqn:Hrows.
    - rewrite insert_or_ignore_absent by exact Hrows.
      unfold row1. rewrite config_rows_snoc, Hrows. auto.
    - rewrite insert_or_ignore_present by (rewrite Hrows; discriminate).
      rewrite Hrows. simpl in Hle |- *. split; [lia|discriminate]. }
  destruct H1 as [Hlen Hfirst].
  assert (Hsame : (if config_ok env2
                   then insert_or_ignore_config
                          (insert_or_ignore_config (server_configs st0) (g_id g1) (g_name g1) ts1)
                          (g_id g1) (g_name g2) (Leveling.current_timestamp (join_now env2))
                   else insert_or_ignore_config (server_configs st0) (g_id g1) (g_name g1) ts1)
                  = insert_or_ignore_config (server_configs st0) (g_id g1) (g_name g1) ts1).
  { destruct (config_ok env2); [|reflexivity].
    apply insert_or_ignore_present. intros He. rewrite He in Hlen. discriminate. }
  rewrite Hsame. auto.
Qed.

End JoinFacts.

(* ================================================================== *)
(** * Instances of the theorems on concrete inputs *)

Module Witnesses.
Import Dispatch DispatchFacts Leveling LevelingFacts Join JoinFacts.

(** [ping] throws "boom": the success row, the handler, then the failure row. *)
Lemma handleCommand_usage_log_witness :
  registry boom_cmd !! "ping" = Some boom_cmd /\
  exists rest,
    trace (snd (handleCommand (registry boom_cmd) env_ok (mkState [] ping_itx))) =
      [] ++ UsageInserted (usage_row env_ok ping_itx true None)
         :: Executed "ping" :: rest /\
    usage_rows rest = [usage_row env_ok ping_itx false (Some "boom")].
Proof.
  split; [reflexivity|].
  apply (handleCommand_usage_log (registry boom_cmd) boom_cmd env_ok (mkState [] ping_itx));
    [reflexivity | reflexivity | discriminate].
Defined.

(** A throwing handler with the API down: the failure notice is rejected
    and the rejection propagates. *)
Lemma handleCommand_contains_errors_witness :
  fst (handleCommand (registry boom_cmd) env_reply_down (mkState [] ping_itx)) =
    match registry boom_cmd !! commandName ping_itx with
    | None => if reply_fails env_reply_down then Err api_error else Ok tt
    | Some c =>
        match h_result (execute c ping_itx) with
        | None => Ok tt
        | Some _ => if reply_fails env_reply_down then Err api_error else Ok tt
        end
    end.
Proof.
  apply (handleCommand_contains_errors (registry boom_cmd) env_reply_down (mkState [] ping_itx)).
  intros c Hc. vm_compute in Hc. injection Hc as <-. discriminate.
Defined.

(** The unregistered name [foo]. *)
Lemma handleCommand_not_found_witness :
  registry boom_cmd !! "foo" = None /\
  usage_rows (trace (snd (handleCommand (registry boom_cmd) env_ok (mkState [] foo_itx))))
    = [] /\
  (reply_fails env_ok = false ->
   fst (handleCommand (registry boom_cmd) env_ok (mkState [] foo_itx)) = Ok tt /\
   trace (snd (handleCommand (registry boom_cmd) env_ok (mkState [] foo_itx))) =
     [] ++ [Sent "pipeline" (mkReply Initial not_found_text true)]).
Proof.
  split; [reflexivity|].
  apply (handleCommand_not_found (registry boom_cmd) env_ok (mkState [] foo_itx)).
  reflexivity.
Defined.

(** A first contribution with the smallest draw. *)
Lemma awardXP_level_rederivable_witness :
  valid_draw 0 /\
  forall r, written (awardXP true 100000 0 "u1" "g1" ∅) = Some r ->
  apply_award ∅ ("u1", "g1") (awardXP true 100000 0 "u1" "g1" ∅) !! ("u1", "g1") = Some r /\
  level r = spec_level (xp r).
Proof.
  assert (Hk : valid_draw 0) by (unfold valid_draw, random_resolution; lia).
  split; [exact Hk|].
  exact (awardXP_level_rederivable true 100000 0 "u1" "g1" ∅ Hk).
Defined.

(** The row of the spec's example: xp 100, level 1, last award 30 s ago. *)
Definition row_recent : UserLevel := mkUserLevel 100 1 5 (Some 70000).

Lemma awardXP_cooldown_witness :
  written (awardXP true 100000 0 "u1" "g1" {[("u1", "g1") := row_recent]}) = None /\
  congratulated (awardXP true 100000 0 "u1" "g1" {[("u1", "g1") := row_recent]}) = None /\
  apply_award {[("u1", "g1") := row_recent]} ("u1", "g1")
    (awardXP true 100000 0 "u1" "g1" {[("u1", "g1") := row_recent]})
  = {[("u1", "g1") := row_recent]}.
Proof.
  apply (proj1 awardXP_cooldown true 100000 0 "u1" "g1"
           {[("u1", "g1") := row_recent]} row_recent 70000).
  - apply lookup_insert_eq.
  - reflexivity.
  - lia.
Defined.

(** The spec's level-up example: xp 80, level 0, a draw giving 20. *)
Definition row_80 : UserLevel := mkUserLevel 80 0 3 (Some 0).
Definition draw_20 : Z := (10 * random_resolution + 14) / 15.

Lemma awardXP_level_up_witness :
  xp_to_award draw_20 = 20 /\
  congratulated (awardXP true 100000 draw_20 "u1" "g1" {[("u1", "g1") := row_80]}) = Some 1.
Proof.
  split; [vm_compute; reflexivity|].
  apply (awardXP_level_up true 100000 draw_20 "u1" "g1" {[("u1", "g1") := row_80]} row_80).
  - apply lookup_insert_eq.
  - reflexivity.
  - intros lg Hl. injection Hl as <-. lia.
  - reflexivity.
  - reflexivity.
  - vm_compute. reflexivity.
Defined.

Definition row_null : UserLevel := mkUserLevel 100 1 5 None.

Lemma awardXP_null_last_gain_witness :
  written (awardXP true 100000 0 "u1" "g1" {[("u1", "g1") := row_null]}) =
    Some (mkUserLevel (100 + xp_to_award 0) (js_level (100 + xp_to_award 0)) 6
                      (Some (current_timestamp 100000))).
Proof.
  apply (awardXP_null_last_gain true 100000 0 "u1" "g1" {[("u1", "g1") := row_null]} row_null).
  - apply lookup_insert_eq.
  - reflexivity.
  - reflexivity.
Defined.

Definition guild_a : Guild := mkGuild "g1" "Alpha" 10.
Definition guild_a' : Guild := mkGuild "g1" "Alpha renamed" 12.
Definition join_env1 : JoinEnv := mkJoinEnv true true 5000 [guild_a].
Definition join_env2 : JoinEnv := mkJoinEnv true true 9000 [guild_a'].

Lemma join_twice_single_row_witness :
  let st1 := on_guildCreate join_env1 guild_a (mkStore [] None) in
  let st2 := on_guildCreate join_env2 guild_a' st1 in
  length (config_rows "g1" (server_configs st2)) = 1%nat /\
  server_configs st2 = server_configs st1 /\
  (config_rows "g1" [] = [] ->
   config_rows "g1" (server_configs st2) =
     [mkServerConfig "g1" "Alpha" (Leveling.current_timestamp 5000) true]).
Proof.
  apply (join_twice_single_row join_env1 join_env2 guild_a guild_a' (mkStore [] None)).
  - reflexivity.
  - reflexivity.
  - simpl. lia.
Defined.

End Witnesses.

(* ================================================================== *)
(** * Further properties of the dispatch pipeline *)

Module DispatchExtra.
Import Dispatch DispatchFacts.

Lemma pipeline_replies_app (t1 t2 : list Event) :
  pipeline_replies (t1 ++ t2) = pipeline_replies t1 ++ pipeline_replies t2.
Proof.
  induction t1 as [|ev t1 IH]; [done|].
  destruct ev as [r|n|w r]; simpl; rewrite ?IH; [done|done|].
  repeat case_match; simpl; rewrite ?IH; done.
Qed.

Lemma pipeline_replies_handler (rs : list Reply) :
  pipeline_replies (map (Sent "handler") rs) = [].
Proof. induction rs; simpl; done. Qed.

(** The effects other than audit-log inserts. *)
Definition non_audit (t : list Event) : list Event :=
  List.filter (fun ev => match ev with UsageInserted _ => false | _ => true end) t.

(** After [registerCommand name c], dispatching [name] runs [c]: the
    trace shows the optional success row, then [c] entered, then the
    replies [c] sent. *)
Theorem registerCommand_then_dispatch (cmds : gmap string Command) (name : string)
    (c : Command) (env : Env) (s : State) :
  commandName (itx s) = name ->
  exists post,
    trace (snd (handleCommand (registerCommand name c cmds) env s)) =
      trace s ++
      (if db_fails env then [] else [UsageInserted (usage_row env (itx s) true None)]) ++
      Executed name :: map (Sent "handler") (h_sent (execute c (itx s))) ++ post.
Proof.
  destruct s as [t i]; simpl. intros <-.
  run_dispatch. unfold registerCommand. rewrite lookup_insert_eq. run_dispatch.
  destruct (db_fails env); simpl;
    destruct (execute c i) as [sent hr hd hres]; simpl;
    destruct hres as [[m|]|]; simpl;
    try destruct (replied i || hr || (deferred i || hd));
    try destruct (reply_fails env); simpl;
    first [eexists; rewrite <- ?app_assoc; simpl; reflexivity
          | exists []; rewrite app_nil_r, <- ?app_assoc; reflexivity].
Qed.

(** A resolved command whose handler completes: dispatch completes and
    the pipeline sends no reply of its own. *)
Theorem handleCommand_success_silent (cmds : gmap string Command) (c : Command)
    (env : Env) (s : State) :
  cmds !! commandName (itx s) = Some c ->
  h_result (execute c (itx s)) = None ->
  fst (handleCommand cmds env s) = Ok tt /\
  pipeline_replies (trace (snd (handleCommand cmds env s))) = pipeline_replies (trace s).
Proof.
  destruct s as [t i]; simpl. intros Hc Hres.
  run_dispatch. rewrite Hc. run_dispatch.
  destruct (db_fails env); simpl;
    destruct (execute c i) as [sent hr hd hres]; simpl in *; subst hres; simpl;
    (split; [reflexivity|]);
    rewrite !pipeline_replies_app; simpl; rewrite pipeline_replies_handler, ?app_nil_r;
    reflexivity.
Qed.

(** Audit-log failures are invisible outside the audit log: with the
    store failing or not, dispatch gives the same outcome, the same
    interaction state and the same other effects, in the same order. *)
Theorem handleCommand_audit_failure_invisible (cmds : gmap string Command)
    (env : Env) (s : State) :
  let env' := mkEnv (now env) true (reply_fails env) in
  fst (handleCommand cmds env s) = fst (handleCommand cmds env' s) /\
  itx (snd (handleCommand cmds env s)) = itx (snd (handleCommand cmds env' s)) /\
  non_audit (trace (snd (handleCommand cmds env s))) =
    non_audit (trace (snd (handleCommand cmds env' s))).
Proof.
  destruct s as [t i]; simpl.
  run_dispatch. destruct (cmds !! commandName i) as [c|] eqn:Hc.
  - run_dispatch.
    destruct (db_fails env); simpl;
      destruct (execute c i) as [sent hr hd hres]; simpl;
      destruct hres as [[m|]|]; simpl;
      try destruct (replied i || hr || (deferred i || hd));
      try destruct (reply_fails env); simpl;
      unfold non_audit; rewrite ?List.filter_app; simpl; rewrite ?app_nil_r;
      auto.
  - run_dispatch. destruct (reply_fails env); simpl; auto.
Qed.

End DispatchExtra.

(* ================================================================== *)
(** * Properties of the stats refresh, the join/leave path and the
      message listener *)

Module JoinExtra.
Import Leveling LevelingFacts Join JoinFacts Events.

Definition member_sum (cache : list Guild) : Z :=
  fold_right (fun g acc => g_memberCount g + acc) 0 cache.

Lemma fold_left_member_sum (cache : list Guild) (a : Z) :
  fold_left (fun acc g => acc + g_memberCount g) cache a = a + member_sum cache.
Proof.
  revert a. induction cache as [|g cache IH]; intros a; simpl; [lia|].
  rewrite IH. lia.
Qed.

Lemma member_sum_perm (c1 c2 : list Guild) :
  Permutation c1 c2 -> member_sum c1 = member_sum c2.
Proof. induction 1; simpl; lia. Qed.

(** The stats count the servers and the members of the cached guilds,
    whatever the order of the cache. *)
Theorem updateBotStats_counts (now : Z) (cache cache' : list Guild) (st : Store) :
  Permutation cache cache' ->
  bot_stats (updateBotStats true now cache st) =
    Some (mkBotStats (Z.of_nat (length cache)) (member_sum cache)
                     (current_timestamp now) (current_timestamp now)) /\
  updateBotStats true now cache st = updateBotStats true now cache' st.
Proof.
  intros Hp. unfold updateBotStats. rewrite !fold_left_member_sum.
  split; [reflexivity|].
  rewrite (Permutation_length Hp), (member_sum_perm _ _ Hp). reflexivity.
Qed.

(** The two statements of the join handler are isolated: a failing stats
    refresh does not stop the config insert, and a failing config insert
    does not stop the stats refresh. *)
Theorem join_failure_isolation (env : JoinEnv) (g : Guild) (st : Store) :
  config_ok env = true -> stats_ok env = false ->
  config_rows (g_id g) (server_configs (on_guildCreate env g st)) <> [] /\
  bot_stats (on_guildCreate env g st) = bot_stats st /\
  bot_stats (on_guildCreate (mkJoinEnv false true (join_now env) (join_cache env)) g st) =
    Some (mkBotStats (Z.of_nat (length (join_cache env))) (member_sum (join_cache env))
                     (current_timestamp (join_now env)) (current_timestamp (join_now env))).
Proof.
  intros Hc Hs. split; [|split].
  - rewrite on_guildCreate_configs, Hc.
    destruct (config_rows (g_id g) (server_configs st)) eqn:Hr.
    + rewrite insert_or_ignore_absent by exact Hr.
      rewrite config_rows_snoc, Hr. discriminate.
    + rewrite insert_or_ignore_present by (rewrite Hr; discriminate). rewrite Hr. discriminate.
  - unfold on_guildCreate, updateBotStats, createServerConfig. rewrite Hs, Hc. reflexivity.
  - unfold on_guildCreate, updateBotStats, createServerConfig. simpl.
    rewrite fold_left_member_sum. reflexivity.
Qed.

(** A server's config created on join survives the bot leaving it: the
    config lookup still finds the row written on join, leveling enabled. *)
Theorem join_leave_config_found (envj envl : JoinEnv) (g : Guild) (st : Store) :
  config_ok envj = true -> config_rows (g_id g) (server_configs st) = [] ->
  getServerConfig true (g_id g) (on_guildDelete envl (on_guildCreate envj g st)) =
    Some (mkServerConfig (g_id g) (g_name g) (current_timestamp (join_now envj)) true).
Proof.
  intros Hc Hr. unfold getServerConfig, on_guildDelete.
  rewrite updateBotStats_configs, on_guildCreate_configs, Hc.
  rewrite insert_or_ignore_absent by exact Hr.
  rewrite config_rows_snoc, Hr. reflexivity.
Qed.

End JoinExtra.

(* ------------------------------------------------------------------ *)

Module EventsExtra.
Import Leveling LevelingFacts Join JoinFacts Events.

(** The message listener never writes [server_configs] or the stats, and
    it changes [user_levels] or sends a congratulation only for a
    non-bot message in a server whose config is found with leveling
    enabled. *)
Theorem messageCreate_gate (env : MsgEnv) (m : Message) (w : World) :
  store (fst (on_messageCreate env m w)) = store w /\
  (user_levels (fst (on_messageCreate env m w)) <> user_levels w \/
   snd (on_messageCreate env m w) <> None ->
   author_bot m = false /\
   exists gid c, guild m = Some gid /\
                 getServerConfig (cfg_ok env) gid (store w) = Some c /\
                 leveling_enabled c = true).
Proof.
  unfold on_messageCreate.
  destruct (author_bot m); [simpl; split; [reflexivity|intros [H|H]; congruence]|].
  destruct (guild m) as [gid|]; [|simpl; split; [reflexivity|intros [H|H]; congruence]].
  destruct (getServerConfig (cfg_ok env) gid (store w)) as [c|] eqn:Hc;
    [|simpl; split; [reflexivity|intros [H|H]; congruence]].
  destruct (leveling_enabled c) eqn:Hl; simpl.
  - split; [reflexivity|]. intros _. split; [reflexivity|]. eauto.
  - split; [reflexivity|intros [H|H]; congruence].
Qed.

(** Join, then the first message of a user in that server: the config
    written on join is found with leveling enabled, and the user gets a
    fresh row (the drawn xp, level 0, one message) and no congratulation. *)
Theorem join_then_first_message (jenv : JoinEnv) (g : Guild) (st : Store)
    (levels : gmap Key UserLevel) (u : string) (env : MsgEnv) :
  config_ok jenv = true -> config_rows (g_id g) (server_configs st) = [] ->
  cfg_ok env = true -> award_ok env = true -> levels !! (u, g_id g) = None ->
  on_messageCreate env (mkMessage u false (Some (g_id g)))
                   (mkWorld (on_guildCreate jenv g st) levels) =
  (mkWorld (on_guildCreate jenv g st)
           (<[(u, g_id g) := mkUserLevel (xp_to_award (msg_draw env)) 0 1
                                         (Some (current_timestamp (msg_now env)))]> levels),
   None).
Proof.
  intros Hj Hr Hc Ha Hn. unfold on_messageCreate. simpl.
  unfold getServerConfig. rewrite Hc, on_guildCreate_configs, Hj.
  rewrite insert_or_ignore_absent by exact Hr.
  rewrite config_rows_snoc, Hr. simpl.
  unfold awardXP. rewrite Ha, Hn. reflexivity.
Qed.

End EventsExtra.

(* ------------------------------------------------------------------ *)

Module LevelingExtra.
Import Leveling LevelingFacts.

Lemma js_level_mono (x y : Z) : x <= y -> js_level x <= js_level y.
Proof.
  intros H. unfold js_level. apply Z.div_le_mono; [lia|]. apply Z.sqrt_le_mono. exact H.
Qed.

Lemma js_level_small (x : Z) : x < 100 -> js_level x = 0.
Proof.
  intros H. unfold js_level.
  destruct (Z_lt_le_dec x 0) as [Hn|Hp].
  - rewrite Z.sqrt_neg by lia. reflexivity.
  - assert (Z.sqrt x <= Z.sqrt 99) by (apply Z.sqrt_le_mono; lia).
    change (Z.sqrt 99) with 9 in *. pose proof (Z.sqrt_nonneg x).
    apply Z.div_small. lia.
Qed.

(** One award over an existing row whose level matches its xp: the xp
    grows by 10 to 24, the message count by one, the level never drops,
    and a congratulation names the level stored by the same write. *)
Theorem award_step (db_ok : bool) (now k : Z) (uid sid : string)
    (st : gmap Key UserLevel) (e r : UserLevel) :
  valid_draw k -> st !! (uid, sid) = Some e -> level e = js_level (xp e) ->
  written (awardXP db_ok now k uid sid st) = Some r ->
  10 <= xp r - xp e <= 24 /\
  messages_sent r = messages_sent e + 1 /\
  level e <= level r /\
  (forall n, congratulated (awardXP db_ok now k uid sid st) = Some n -> n = level r).
Proof.
  intros Hk He Hl Hw. pose proof (xp_to_award_bounds k Hk) as Hb.
  revert Hw. unfold awardXP. rewrite He.
  destruct db_ok; simpl; [|discriminate].
  destruct (match last_xp_gain e with
            | Some lastGain => now - lastGain <? 60000
            | None => false end); simpl; [discriminate|].
  intros Hw. injection Hw as <-. simpl.
  split; [lia|split; [reflexivity|split]].
  - rewrite Hl. apply js_level_mono. lia.
  - intros n. destruct (level e <? js_level (xp e + xp_to_award k));
      [intros Hn; injection Hn as <-; reflexivity | discriminate].
Qed.

(** The row invariant kept by the engine: the level matches the xp, the
    xp is between 10 and 24 per counted message, and the last award time
    is set. *)
Definition row_ok (r : UserLevel) : Prop :=
  level r = js_level (xp r) /\
  10 * messages_sent r <= xp r <= 24 * messages_sent r /\
  last_xp_gain r <> None.

Lemma award_row_ok (db_ok : bool) (now k : Z) (uid sid : string)
    (st : gmap Key UserLevel) (r : UserLevel) :
  valid_draw k -> (forall e, st !! (uid, sid) = Some e -> row_ok e) ->
  written (awardXP db_ok now k uid sid st) = Some r -> row_ok r.
Proof.
  intros Hk Hst. pose proof (xp_to_award_bounds k Hk) as Hb.
  unfold awardXP. destruct db_ok; simpl; [|discriminate].
  destruct (st !! (uid, sid)) as [e|] eqn:He.
  - destruct (Hst e eq_refl) as (Hl & Hm & Hg).
    destruct (match last_xp_gain e with
              | Some lastGain => now - lastGain <? 60000
              | None => false end); simpl; [discriminate|].
    intros Hw. injection Hw as <-. unfold row_ok; simpl.
    split; [reflexivity|split; [lia|discriminate]].
  - simpl. intros Hw. injection Hw as <-. unfold row_ok; simpl.
    split; [symmetry; apply js_level_small; lia|split; [lia|discriminate]].
Qed.

(** Handled one after the other with valid draws, messages keep every
    row of [user_levels] satisfying [row_ok]; in particular from an empty
    table. *)
Theorem run_awards_rows_ok (evs : list XPEvent) :
  forall (st : gmap Key UserLevel),
  Forall (fun ev => valid_draw (ev_draw ev)) evs ->
  map_Forall (fun _ r => row_ok r) st ->
  map_Forall (fun _ r => row_ok r) (fst (run_awards st evs)).
Proof.
  induction evs as [|ev evs IH]; intros st Hd Hst; simpl; [exact Hst|].
  inversion Hd as [|? ? Hk Hd']; subst.
  destruct (run_awards _ evs) as [final recs] eqn:Hrun. simpl.
  change final with (fst (final, recs)). rewrite <- Hrun.
  apply IH; [exact Hd'|].
  unfold apply_award.
  destruct (written _) as [r|] eqn:Hw; [|exact Hst].
  apply map_Forall_insert_2; [|exact Hst].
  eapply (award_row_ok _ _ _ _ _ _ _ Hk). 2: exact Hw.
  intros e He. exact (Hst _ e He).
Qed.

(** The message counter of a row counts the awards recorded for its key:
    handled one after the other, the final count is the initial one plus
    the number of awards. *)
Theorem run_awards_counts (evs : list XPEvent) :
  forall (st : gmap Key UserLevel) (key : Key),
  let '(final, recs) := run_awards st evs in
  match final !! key with
  | Some r => messages_sent r =
                match st !! key with Some r0 => messages_sent r0 | None => 0 end
                + Z.of_nat (length (award_times key recs))
  | None => st !! key = None /\ award_times key recs = []
  end.
Proof.
  induction evs as [|ev evs IH]; intros st key; simpl.
  - destruct (st !! key); simpl; [lia|auto].
  - set (k' := (ev_user ev, ev_server ev)).
    set (out := awardXP (ev_db_ok ev) (ev_time ev) (ev_draw ev) (ev_user ev) (ev_server ev) st).
    specialize (IH (apply_award st k' out) key).
    destruct (run_awards (apply_award st k' out) evs) as [final recs] eqn:Hrun.
    rewrite award_times_app.
    destruct (written out) as [r|] eqn:Hw.
    + pose proof (awardXP_written_stamp _ _ _ _ _ _ _ Hw) as Hr. rewrite Hr.
      unfold apply_award in IH. rewrite Hw in IH.
      destruct (decide (k' = key)) as [<-|Hne].
      * assert (Hone : award_times k' [(k', current_timestamp (ev_time ev))]
                       = [current_timestamp (ev_time ev)]).
        { unfold award_times. simpl. rewrite bool_decide_eq_true_2 by reflexivity.
          reflexivity. }
        rewrite Hone. rewrite lookup_insert_eq in IH.
        (* the written row's count is the old count plus one *)
        assert (Hm : messages_sent r =
                     match st !! k' with Some r0 => messages_sent r0 | None => 0 end + 1).
        { revert Hw. subst out. unfold awardXP, k'.
          destruct (ev_db_ok ev); simpl; [|discriminate].
          destruct (st !! (ev_user ev, ev_server ev)) as [e|]; simpl.
          - destruct (match last_xp_gain e with
                      | Some lastGain => ev_time ev - lastGain <? 60000
                      | None => false end); simpl; [discriminate|].
            intros Hw. injection Hw as <-. reflexivity.
          - intros Hw. injection Hw as <-. reflexivity. }
        destruct (final !! k'); [|destruct IH; discriminate].
        rewrite IH, Hm. simpl. lia.
      * assert (Hnone : award_times key [(k', current_timestamp (ev_time ev))] = []).
        { unfold award_times. simpl. rewrite bool_decide_eq_false_2 by exact Hne.
          reflexivity. }
        rewrite Hnone. simpl. rewrite lookup_insert_ne in IH by exact Hne. exact IH.
    + simpl. unfold apply_award in IH. rewrite Hw in IH. exact IH.
Qed.

End LevelingExtra.

(* ================================================================== *)
(** * Instances of the further properties on concrete inputs *)

Module ExtraWitnesses.
Import Dispatch DispatchFacts DispatchExtra Leveling LevelingFacts LevelingExtra
       Join JoinFacts JoinExtra Events EventsExtra.

(** A command that replies once and completes. *)
Definition pong : Reply := mkReply Initial "pong" false.
Definition ok_cmd : Command := mkCommand (fun _ => mkHandled [pong] true false None).

Lemma registerCommand_then_dispatch_witness :
  exists post,
    trace (snd (handleCommand (registerCommand "ping" ok_cmd (registry boom_cmd))
                              env_ok (mkState [] ping_itx))) =
      [] ++ [UsageInserted (usage_row env_ok ping_itx true None)] ++
      Executed "ping" :: [Sent "handler" pong] ++ post.
Proof.
  exact (registerCommand_then_dispatch (registry boom_cmd) "ping" ok_cmd env_ok
           (mkState [] ping_itx) eq_refl).
Defined.

Lemma handleCommand_success_silent_witness :
  fst (handleCommand (registry ok_cmd) env_ok (mkState [] ping_itx)) = Ok tt /\
  pipeline_replies (trace (snd (handleCommand (registry ok_cmd) env_ok (mkState [] ping_itx))))
    = [].
Proof.
  exact (handleCommand_success_silent (registry ok_cmd) ok_cmd env_ok
           (mkState [] ping_itx) eq_refl eq_refl).
Defined.

(** A handler that replies and then throws: the notice is a follow-up. *)
Definition late_boom_cmd : Command :=
  mkCommand (fun _ => mkHandled [pong] true false (Some (JsError (Some "boom")))).

Lemma handleCommand_failure_notice_witness :
  fst (handleCommand (registry late_boom_cmd) env_ok (mkState [] ping_itx)) = Ok tt /\
  exists pre, trace (snd (handleCommand (registry late_boom_cmd) env_ok (mkState [] ping_itx)))
              = pre ++ [Sent "pipeline" (mkReply FollowUp error_text true)].
Proof.
  exact (handleCommand_failure_notice (registry late_boom_cmd) late_boom_cmd env_ok
           (mkState [] ping_itx) (Some "boom") eq_refl eq_refl eq_refl).
Defined.

Definition guild_x : Guild := mkGuild "g1" "Alpha" 10.
Definition guild_b : Guild := mkGuild "g2" "Beta" 7.
Definition jenv_x1 : JoinEnv := mkJoinEnv true true 5000 [guild_x].
Definition jenv_x2 : JoinEnv := mkJoinEnv true true 9000 [].

Lemma updateBotStats_counts_witness :
  bot_stats (updateBotStats true 5000 [guild_x; guild_b] (mkStore [] None)) =
    Some (mkBotStats 2 17 (current_timestamp 5000) (current_timestamp 5000)) /\
  updateBotStats true 5000 [guild_x; guild_b] (mkStore [] None) =
    updateBotStats true 5000 [guild_b; guild_x] (mkStore [] None).
Proof.
  exact (updateBotStats_counts 5000 [guild_x; guild_b] [guild_b; guild_x] (mkStore [] None)
           (perm_swap guild_b guild_x [])).
Defined.

Definition join_env_stats_down : JoinEnv := mkJoinEnv true false 5000 [guild_x].

Lemma join_failure_isolation_witness :
  config_rows "g1" (server_configs (on_guildCreate join_env_stats_down guild_x (mkStore [] None)))
    <> [] /\
  bot_stats (on_guildCreate join_env_stats_down guild_x (mkStore [] None)) = None /\
  bot_stats (on_guildCreate (mkJoinEnv false true 5000 [guild_x]) guild_x (mkStore [] None)) =
    Some (mkBotStats 1 (member_sum [guild_x]) (current_timestamp 5000)
                     (current_timestamp 5000)).
Proof.
  exact (join_failure_isolation join_env_stats_down guild_x (mkStore [] None) eq_refl eq_refl).
Defined.

Lemma join_leave_config_found_witness :
  getServerConfig true "g1" (on_guildDelete jenv_x2 (on_guildCreate jenv_x1 guild_x
                                                          (mkStore [] None))) =
    Some (mkServerConfig "g1" "Alpha" (current_timestamp 5000) true).
Proof.
  exact (join_leave_config_found jenv_x1 jenv_x2 guild_x (mkStore [] None) eq_refl eq_refl).
Defined.

Definition msg_env : MsgEnv := mkMsgEnv true true 100000 0.

Lemma join_then_first_message_witness :
  on_messageCreate msg_env (mkMessage "u1" false (Some "g1"))
                   (mkWorld (on_guildCreate jenv_x1 guild_x (mkStore [] None)) ∅) =
  (mkWorld (on_guildCreate jenv_x1 guild_x (mkStore [] None))
           (<[("u1", "g1") := mkUserLevel (xp_to_award 0) 0 1
                                         (Some (current_timestamp 100000))]> ∅),
   None).
Proof.
  exact (join_then_first_message jenv_x1 guild_x (mkStore [] None) ∅ "u1" msg_env
           eq_refl eq_refl eq_refl eq_refl eq_refl).
Defined.

(** A row whose level matches its xp (level 0 for 80), and a draw of 20. *)
Definition row_x80 : UserLevel := mkUserLevel 80 0 3 (Some 0).
Definition draw_x20 : Z := (10 * random_resolution + 14) / 15.

Definition row_x80' : UserLevel :=
  mkUserLevel (80 + xp_to_award draw_x20) (js_level (80 + xp_to_award draw_x20)) 4
              (Some (current_timestamp 100000)).

Lemma award_step_witness :
  10 <= xp row_x80' - xp row_x80 <= 24 /\
  messages_sent row_x80' = messages_sent row_x80 + 1 /\
  level row_x80 <= level row_x80' /\
  (forall n, congratulated (awardXP true 100000 draw_x20 "u1" "g1" {[("u1", "g1") := row_x80]})
               = Some n -> n = level row_x80').
Proof.
  assert (Hk : valid_draw draw_x20)
    by (unfold valid_draw; split; [apply Z.leb_le | apply Z.ltb_lt]; vm_compute; reflexivity).
  apply (award_step true 100000 draw_x20 "u1" "g1" {[("u1", "g1") := row_x80]} row_x80 row_x80').
  - exact Hk.
  - apply lookup_insert_eq.
  - vm_compute. reflexivity.
  - vm_compute. reflexivity.
Defined.

Definition ev_at (t : Z) : XPEvent := mkXPEvent "u1" "g1" t 0 true.

Lemma run_awards_rows_ok_witness :
  map_Forall (fun _ r => row_ok r)
    (fst (run_awards ∅ [ev_at 0; ev_at 30000; ev_at 61000; ev_at 200000])).
Proof.
  apply run_awards_rows_ok.
  - repeat constructor; unfold valid_draw, random_resolution; simpl; lia.
  - apply map_Forall_empty.
Defined.

End ExtraWitnesses.
